(** * BadScaledPointerArithmeticChecker

    A shallow embedding of
    [clang/lib/StaticAnalyzer/Checkers/BadScaledPointerArithmeticChecker.cpp]
    and the properties of its three member functions [isCharPtr],
    [checkPreStmt] and [reportBug].

    The checker talks to three collaborators that live in other parts of the
    tree: the AST (types of expressions, layout queries), the symbolic
    execution engine (the value bound to an expression, error nodes) and the
    bug reporter.  The AST is an interface here (a type class), the engine
    and the reporter are the [CheckerContext] that every member function
    receives by reference; each call into it is recorded, in program order,
    in the context's trace. *)

From Stdlib Require Import ZArith Bool Ascii String.
From stdpp Require Import base option list gmap strings.

Local Open Scope string_scope.
Local Open Scope Z_scope.

(** ** Operators *)

(** The opcodes of [BinaryOperator], in the order of clang's
    [OperationKinds.def]. *)
Inductive BinaryOperatorKind : Set :=
  | BO_PtrMemD | BO_PtrMemI
  | BO_Mul | BO_Div | BO_Rem
  | BO_Add | BO_Sub
  | BO_Shl | BO_Shr
  | BO_Cmp
  | BO_LT | BO_GT | BO_LE | BO_GE
  | BO_EQ | BO_NE
  | BO_And | BO_Xor | BO_Or
  | BO_LAnd | BO_LOr
  | BO_Assign
  | BO_MulAssign | BO_DivAssign | BO_RemAssign
  | BO_AddAssign | BO_SubAssign
  | BO_ShlAssign | BO_ShrAssign
  | BO_AndAssign | BO_XorAssign | BO_OrAssign
  | BO_Comma.

#[global] Instance BinaryOperatorKind_eq_dec : EqDecision BinaryOperatorKind.
Proof. solve_decision. Defined.

(** Modelled from the spec: [BinaryOperator::isAdditiveOp] (declared in
    clang's Expr.h, which is not among the sources).  The spec calls
    additive the operators [+] and [-]. *)
Definition isAdditiveOpcode (Opc : BinaryOperatorKind) : bool :=
  bool_decide (Opc = BO_Add) || bool_decide (Opc = BO_Sub).

(** ** Symbolic values *)

(** What a symbolic value denotes; the checker never looks at it. *)
Inductive SValData : Set :=
  | UndefinedVal
  | UnknownVal
  | ConcreteInt (V : Z)
  | SymbolVal (Sym : nat)
  | MemRegionVal (Region : nat).

(** Modelled from the spec: [SVal] with its provenance flag (SVals.h is not
    among the sources).  The flag says that the value was computed from a
    sizeof or offsetof expression; the engine propagates it, the checker
    reads it through [isFromSizeof]. *)
Record SVal : Set := mkSVal {
  getData : SValData;
  isFromSizeof : bool
}.

#[global] Instance SValData_eq_dec : EqDecision SValData.
Proof. solve_decision. Defined.

#[global] Instance SVal_eq_dec : EqDecision SVal.
Proof. solve_decision. Defined.

(** The path state as the checker sees it: the binding of expressions (by
    node identity) to symbolic values. *)
Abbreviation ProgramState := (gmap nat SVal).

(** An expression without a binding evaluates to an unknown, untagged
    value. *)
Definition lookupSVal (St : ProgramState) (Id : nat) : SVal :=
  default (mkSVal UnknownVal false) (St !! Id).

(** ** Reports *)

(** Modelled from the spec: [BugType] (BugType.h is not among the sources).
    The spec names the first string of the constructor the fixed identifier
    of the bug category and the second one its short description. *)
Record BugType : Set := mkBugType {
  getIdentifier : string;
  getShortDescription : string
}.

(** The member [BT] of the checker. *)
Definition BT : BugType :=
  mkBugType "Badly scaled pointer arithmetic" "Suspicious operation".

(** Nodes of the exploded graph are opaque to the checker. *)
Record ExplodedNode : Set := mkNode { getNodeId : nat }.

Record PathSensitiveBugReport : Set := mkReport {
  getBugType : BugType;
  getDescription : string;
  getErrorNode : ExplodedNode
}.

(** Modelled from the spec: [llvm::formatv] (FormatVariadic.h is not among
    the sources), for the one replacement field the checker uses: every
    occurrence of the field [{0}] in the format is replaced by the
    argument. *)
Fixpoint formatv (Fmt Arg0 : string) : string :=
  match Fmt with
  | EmptyString => EmptyString
  | String c Rest =>
      match Rest with
      | String d (String e Rest') =>
          if bool_decide (c = "{"%char) && bool_decide (d = "0"%char)
             && bool_decide (e = "}"%char)
          then Arg0 +:+ formatv Rest' Arg0
          else String c (formatv Rest Arg0)
      | _ => String c (formatv Rest Arg0)
      end
  end.

(** ** The AST interface *)

(** The queries on (non-null) types that the checker makes.  A [QualType]
    is such a type or null. *)
Class ASTContext (Ty : Type) := {
  isPointerType : Ty → bool;
  isObjCObjectPointerType : Ty → bool;
  isIntegerType : Ty → bool;
  getPointeeType : Ty → option Ty;
  isIncompleteType : Ty → bool;
  isDependentType : Ty → bool;
  isDependentSizedArrayType : Ty → bool;
  isConstantSizeType : Ty → bool;
  (** the layout table: the size of a type in chars, [CharUnits::getQuantity] *)
  sizeInChars : Ty → Z
}.

Section Checker.

Context {Ty : Type} `{AST : ASTContext Ty}.

Abbreviation QualType := (option Ty).

(** [Type::isAnyPointerType], as clang's Type.h defines it. *)
Definition isAnyPointerType (T : Ty) : bool :=
  isPointerType T || isObjCObjectPointerType T.

(** Modelled from the spec: the domain of [ASTContext::getTypeSizeInChars]
    (ASTContext.cpp is not among the sources): the size query is only valid
    for complete, non-dependent, constant-size types. *)
Definition sizeQueryValid (T : Ty) : bool :=
  negb (isIncompleteType T) && negb (isDependentType T) && isConstantSizeType T.

Record Expr := mkExpr {
  getExprId : nat;
  getType : Ty
}.

Record BinaryOperator := mkBinaryOperator {
  getOpcode : BinaryOperatorKind;
  getLHS : Expr;
  getRHS : Expr
}.

Definition isAdditiveOp (BO : BinaryOperator) : bool :=
  isAdditiveOpcode (getOpcode BO).

(** ** The checker context *)

(** One entry per call that a member function makes into the context. *)
Inductive Call :=
  | CallGetSVal (E : Expr)
  | CallGetTypeSizeInChars (T : Ty)
  | CallGenerateNonFatalErrorNode (St : ProgramState)
  | CallEmitReport (R : PathSensitiveBugReport).

Record CheckerContext := mkContext {
  (** the state of the path being explored *)
  getState : ProgramState;
  (** the engine: the node it hands out for a state, or none *)
  getEngine : ProgramState → option ExplodedNode;
  (** the calls made so far, oldest first *)
  getTrace : list Call
}.

Definition logCall (K : Call) (C : CheckerContext) : CheckerContext :=
  mkContext (getState C) (getEngine C) (getTrace C ++ [K]).

(** The reports handed to the bug reporter, oldest first. *)
Fixpoint reportsOf (Tr : list Call) : list PathSensitiveBugReport :=
  match Tr with
  | [] => []
  | CallEmitReport R :: Tr' => R :: reportsOf Tr'
  | _ :: Tr' => reportsOf Tr'
  end.

(** The types whose size was asked for, oldest first. *)
Fixpoint sizeQueriesOf (Tr : list Call) : list Ty :=
  match Tr with
  | [] => []
  | CallGetTypeSizeInChars T :: Tr' => T :: sizeQueriesOf Tr'
  | _ :: Tr' => sizeQueriesOf Tr'
  end.

(** The expressions whose symbolic value was asked for, oldest first. *)
Fixpoint svalQueriesOf (Tr : list Call) : list Expr :=
  match Tr with
  | [] => []
  | CallGetSVal E :: Tr' => E :: svalQueriesOf Tr'
  | _ :: Tr' => svalQueriesOf Tr'
  end.

Definition getReports (C : CheckerContext) : list PathSensitiveBugReport :=
  reportsOf (getTrace C).

(** A member function is a computation on the context that either returns
    or stops the analysis (an assertion of a collaborator fails): [None]. *)
Definition Checker (A : Type) : Type :=
  CheckerContext → option (A * CheckerContext).

Definition ret {A} (a : A) : Checker A := fun C => Some (a, C).

Definition bind {A B} (m : Checker A) (k : A → Checker B) : Checker B :=
  fun C => match m C with
           | Some (a, C') => k a C'
           | None => None
           end.

Notation "x <- m ;; k" := (bind m (fun x => k))
  (at level 100, m at next level, right associativity).

(** [C.getSVal(E)] *)
Definition getSVal (E : Expr) : Checker SVal :=
  fun C => Some (lookupSVal (getState C) (getExprId E), logCall (CallGetSVal E) C).

(** [C.getASTContext().getTypeSizeInChars(T).getQuantity()] *)
Definition getTypeSizeInChars (T : Ty) : Checker Z :=
  fun C => if sizeQueryValid T
           then Some (sizeInChars T, logCall (CallGetTypeSizeInChars T) C)
           else None.

(** [C.generateNonFatalErrorNode(C.getState())] *)
Definition generateNonFatalErrorNode : Checker (option ExplodedNode) :=
  fun C => Some (getEngine C (getState C),
                 logCall (CallGenerateNonFatalErrorNode (getState C)) C).

(** [C.emitReport(R)] *)
Definition emitReport (R : PathSensitiveBugReport) : Checker unit :=
  fun C => Some (tt, logCall (CallEmitReport R) C).

(** ** The checker *)

Definition isCharPtr (T : QualType) : Checker bool :=
  match T with
  | None => ret false
  | Some T' =>
      if negb (isAnyPointerType T') then ret false
      else
        match getPointeeType T' with
        | None => ret false
        | Some PT =>
            if isIncompleteType PT || isDependentType PT
               || isDependentSizedArrayType PT || negb (isConstantSizeType PT)
            then ret false
            else
              Size <- getTypeSizeInChars PT ;;
              ret (Size =? 1)
        end
  end.

Definition BugMessage (IsLeft : bool) : string :=
  formatv
    "In pointer arithmetic {0} argument is calculated from a sizeof or offsetof expression"
    (if IsLeft then "left" else "right").

Definition reportBug (IsLeft : bool) : Checker unit :=
  N <- generateNonFatalErrorNode ;;
  match N with
  | None => ret tt
  | Some N' => emitReport (mkReport BT (BugMessage IsLeft) N')
  end.

Definition checkPreStmt (BO : BinaryOperator) : Checker unit :=
  let OpKind := getOpcode BO in
  if negb (isAdditiveOp BO) && negb (bool_decide (OpKind = BO_AddAssign))
     && negb (bool_decide (OpKind = BO_SubAssign))
  then ret tt
  else
    let Lhs := getLHS BO in
    let Rhs := getRHS BO in
    if isPointerType (getType Lhs) && isIntegerType (getType Rhs) then
      RHSVal <- getSVal Rhs ;;
      if isFromSizeof RHSVal then
        IsChar <- isCharPtr (Some (getType Lhs)) ;;
        if negb IsChar then reportBug false else ret tt
      else ret tt
    else if isIntegerType (getType Lhs) && isPointerType (getType Rhs) then
      LHSVal <- getSVal Lhs ;;
      if isFromSizeof LHSVal then
        IsChar <- isCharPtr (Some (getType Rhs)) ;;
        if negb IsChar then reportBug true else ret tt
      else ret tt
    else ret tt.

(** ** The vocabulary of the properties *)

(** The operators that pass the filter of [checkPreStmt]: [+], [-], [+=]
    and [-=]. *)
Definition AdditiveOrCompound : list BinaryOperatorKind :=
  [BO_Add; BO_Sub; BO_AddAssign; BO_SubAssign].

(** The two roles of the operands; [IsLeft] says that the integer is the
    left operand. *)
Definition IntOperand (BO : BinaryOperator) (IsLeft : bool) : Expr :=
  if IsLeft then getLHS BO else getRHS BO.

Definition PtrOperand (BO : BinaryOperator) (IsLeft : bool) : Expr :=
  if IsLeft then getRHS BO else getLHS BO.

(** The operations the checker is after: an additive or compound additive
    operator, exactly one side of pointer type, the other side of integer
    type and bound, in the state of the path, to a value tagged as computed
    from sizeof or offsetof. *)
Definition Qualifying (BO : BinaryOperator) (C : CheckerContext)
    (IsLeft : bool) : Prop :=
  getOpcode BO ∈ AdditiveOrCompound ∧
  isPointerType (getType (PtrOperand BO IsLeft)) = true ∧
  isPointerType (getType (IntOperand BO IsLeft)) = false ∧
  isIntegerType (getType (IntOperand BO IsLeft)) = true ∧
  isFromSizeof
    (lookupSVal (getState C) (getExprId (IntOperand BO IsLeft))) = true.

(** A type of statically known constant size: complete, not dependent, not
    a dependently sized array, of constant size. *)
Definition hasKnownSize (PT : Ty) : bool :=
  negb (isIncompleteType PT) && negb (isDependentType PT)
  && negb (isDependentSizedArrayType PT) && isConstantSizeType PT.

(** The pointee of [T], when [T] is a pointer to a type of known size: the
    one case in which the size may be asked for. *)
Definition checkedPointee (T : QualType) : option Ty :=
  match T with
  | Some T' =>
      if isAnyPointerType T' then
        match getPointeeType T' with
        | Some PT => if hasKnownSize PT then Some PT else None
        | None => None
        end
      else None
  | None => None
  end.

(** [PT] is the pointee of [QT], and [QT] went through every guard of the
    size-one test: it is not null, it is a pointer, and its pointee [PT] is
    complete, not dependent, not a dependently sized array and of constant
    size. *)
Definition Guarded (QT : QualType) (PT : Ty) : Prop :=
  ∃ T, QT = Some T ∧ isAnyPointerType T = true ∧ getPointeeType T = Some PT
       ∧ isIncompleteType PT = false ∧ isDependentType PT = false
       ∧ isDependentSizedArrayType PT = false ∧ isConstantSizeType PT = true.

(** The pointee of the pointer type [T] is null, incomplete, dependent, a
    dependently sized array or not of constant size. *)
Definition PointeeSizeUnknown (T : Ty) : Prop :=
  match getPointeeType T with
  | None => True
  | Some PT =>
      isIncompleteType PT = true ∨ isDependentType PT = true
      ∨ isDependentSizedArrayType PT = true ∨ isConstantSizeType PT = false
  end.

(** The two messages, as the reader of a report sees them. *)
Definition SideMessage (IsLeft : bool) : string :=
  if IsLeft
  then "In pointer arithmetic left argument is calculated from a sizeof or offsetof expression"
  else "In pointer arithmetic right argument is calculated from a sizeof or offsetof expression".

(** A report of the checker's making for the operation [BO]: its bug type
    is [BT], its message the one for the side of an operand of integer type
    that faces an operand of pointer type. *)
Definition AddedBy (BO : BinaryOperator) (R : PathSensitiveBugReport) : Prop :=
  ∃ IsLeft N, R = mkReport BT (SideMessage IsLeft) N
              ∧ isIntegerType (getType (IntOperand BO IsLeft)) = true
              ∧ isPointerType (getType (PtrOperand BO IsLeft)) = true.


(** ** The calls of a run *)

(** The states for which an error node was asked, oldest first. *)
Fixpoint nodeRequestsOf (Tr : list Call) : list ProgramState :=
  match Tr with
  | [] => []
  | CallGenerateNonFatalErrorNode St :: Tr' => St :: nodeRequestsOf Tr'
  | _ :: Tr' => nodeRequestsOf Tr'
  end.

(** The calls of [reportBug]: the request for an error node and, where the
    engine answers with a node, the report. *)
Definition reportCalls (IsLeft : bool) (St : ProgramState)
    (Engine : ProgramState → option ExplodedNode) : list Call :=
  CallGenerateNonFatalErrorNode St ::
  match Engine St with
  | Some N => [CallEmitReport (mkReport BT (SideMessage IsLeft) N)]
  | None => []
  end.

(** The calls of [!isCharPtr(T, C)] followed by [reportBug]. *)
Definition decisionCalls (T : Ty) (IsLeft : bool) (St : ProgramState)
    (Engine : ProgramState → option ExplodedNode) : list Call :=
  match checkedPointee (Some T) with
  | Some PT =>
      CallGetTypeSizeInChars PT ::
      (if sizeInChars PT =? 1 then [] else reportCalls IsLeft St Engine)
  | None => reportCalls IsLeft St Engine
  end.

(** The calls of one branch of [checkPreStmt]. *)
Definition branchCalls (BO : BinaryOperator) (IsLeft : bool)
    (St : ProgramState) (Engine : ProgramState → option ExplodedNode)
  : list Call :=
  CallGetSVal (IntOperand BO IsLeft) ::
  (if isFromSizeof (lookupSVal St (getExprId (IntOperand BO IsLeft)))
   then decisionCalls (getType (PtrOperand BO IsLeft)) IsLeft St Engine
   else []).

(** The calls that a run of [checkPreStmt] makes, in program order, as a
    function of the operation, the state of the path and the engine
    ([checkPreStmt_calls] below proves that it makes these and no others). *)
Definition callsOf (BO : BinaryOperator) (St : ProgramState)
    (Engine : ProgramState → option ExplodedNode) : list Call :=
  if bool_decide (getOpcode BO ∈ AdditiveOrCompound) then
    if isPointerType (getType (getLHS BO)) && isIntegerType (getType (getRHS BO))
    then branchCalls BO false St Engine
    else if isIntegerType (getType (getLHS BO))
            && isPointerType (getType (getRHS BO))
    then branchCalls BO true St Engine
    else []
  else [].

End Checker.

Arguments Expr : clear implicits.
Arguments BinaryOperator : clear implicits.
Arguments Call : clear implicits.
Arguments CheckerContext : clear implicits.
Arguments Checker : clear implicits.

(** ** A fragment of C

    The types of the scenarios: enough of C (with the GNU extensions) to
    run the checker on concrete operations. *)
Module CModel.

Inductive CType : Set :=
  | CVoid
  | CChar
  | CInt
  | CULong
  | CDouble
  (** a struct; without a size it is only forward declared *)
  | CStruct (Name : string) (Size : option Z)
  (** a variable length array *)
  | CVariableArray (Elem : CType)
  (** a template type parameter *)
  | CTemplateTypeParm (Name : string)
  (** an array whose bound depends on a template parameter *)
  | CDependentSizedArray (Elem : CType)
  | CPointer (Pointee : CType).

Definition sizeOf (T : CType) : Z :=
  match T with
  | CVoid => 0
  | CChar => 1
  | CInt => 4
  | CULong => 8
  | CDouble => 8
  | CStruct _ Size => default 0 Size
  | CVariableArray _ => 0
  | CTemplateTypeParm _ => 0
  | CDependentSizedArray _ => 0
  | CPointer _ => 8
  end.

#[global] Instance CAST : ASTContext CType := {|
  isPointerType T := match T with CPointer _ => true | _ => false end;
  isObjCObjectPointerType _ := false;
  isIntegerType T :=
    match T with CChar | CInt | CULong => true | _ => false end;
  getPointeeType T := match T with CPointer P => Some P | _ => None end;
  isIncompleteType T :=
    match T with CVoid | CStruct _ None => true | _ => false end;
  isDependentType T :=
    match T with
    | CTemplateTypeParm _ | CDependentSizedArray _ => true
    | _ => false
    end;
  isDependentSizedArrayType T :=
    match T with CDependentSizedArray _ => true | _ => false end;
  isConstantSizeType T :=
    match T with CVariableArray _ => false | _ => true end;
  sizeInChars := sizeOf
|}.

(** [int *p] and [char *q], the operands of the scenarios. *)
Definition IntPtrVar : Expr CType := mkExpr 1%nat (CPointer CInt).
Definition CharPtrVar : Expr CType := mkExpr 2%nat (CPointer CChar).
(** [sizeof(int)], of type [unsigned long]. *)
Definition SizeofInt : Expr CType := mkExpr 3%nat CULong.
(** [int n] *)
Definition IntVar : Expr CType := mkExpr 4%nat CInt.
(** [struct Fwd *f], [struct Fwd] only forward declared. *)
Definition FwdPtrVar : Expr CType := mkExpr 5%nat (CPointer (CStruct "Fwd" None)).
(** [struct Empty *e], [struct Empty {}] of size 0 (a GNU extension). *)
Definition EmptyPtrVar : Expr CType :=
  mkExpr 6%nat (CPointer (CStruct "Empty" (Some 0))).

Definition Node7 : ExplodedNode := mkNode 7.

(** A path state where [sizeof(int)] is bound to the tagged value 4 and
    [n] to the untagged value 5. *)
Definition SizeofState : ProgramState :=
  <[getExprId SizeofInt := mkSVal (ConcreteInt 4) true]>
    (<[getExprId IntVar := mkSVal (ConcreteInt 5) false]> ∅).

(** An engine that always hands out a node, and one that never does. *)
Definition Willing : ProgramState → option ExplodedNode := fun _ => Some Node7.
Definition Declining : ProgramState → option ExplodedNode := fun _ => None.

Definition Start (Engine : ProgramState → option ExplodedNode)
  : CheckerContext CType :=
  mkContext SizeofState Engine [].

(** Scenario A, [p + sizeof(int)] with [int *p]. *)
Definition ScenarioA : BinaryOperator CType :=
  mkBinaryOperator BO_Add IntPtrVar SizeofInt.
(** Scenario B, [q + sizeof(int)] with [char *q]. *)
Definition ScenarioB : BinaryOperator CType :=
  mkBinaryOperator BO_Add CharPtrVar SizeofInt.
(** Scenario C, the compound form [p += sizeof(int)]. *)
Definition ScenarioC : BinaryOperator CType :=
  mkBinaryOperator BO_AddAssign IntPtrVar SizeofInt.
(** Scenario E, [p + n] with an ordinary [int n]. *)
Definition ScenarioE : BinaryOperator CType :=
  mkBinaryOperator BO_Add IntPtrVar IntVar.
(** [sizeof(int) + f], the integer on the left of a pointer to a forward
    declared struct. *)
Definition ForwardSum : BinaryOperator CType :=
  mkBinaryOperator BO_Add SizeofInt FwdPtrVar.
(** [e + sizeof(int)] with a pointer to an empty struct. *)
Definition EmptySum : BinaryOperator CType :=
  mkBinaryOperator BO_Add EmptyPtrVar SizeofInt.
(** [p < sizeof(int)], a comparison of the operands of scenario A. *)
Definition Comparison : BinaryOperator CType :=
  mkBinaryOperator BO_LT IntPtrVar SizeofInt.


(** [p - q], the difference of two pointers. *)
Definition PointerDifference : BinaryOperator CType :=
  mkBinaryOperator BO_Sub IntPtrVar CharPtrVar.

(** Another path state: [sizeof(int)] bound to a tagged symbol, [p] to a
    tagged region, [n] unbound. *)
Definition SymbolicState : ProgramState :=
  <[getExprId SizeofInt := mkSVal (SymbolVal 9) true]>
    (<[getExprId IntPtrVar := mkSVal (MemRegionVal 2) true]> ∅).

(** A context on that state in which calls were made already. *)
Definition Later : CheckerContext CType :=
  mkContext SymbolicState Willing
    [CallGetSVal IntVar; CallEmitReport (mkReport BT (SideMessage true) Node7)].

(** The context that the run of scenario A leaves, on the willing engine. *)
Definition AfterScenarioA : CheckerContext CType :=
  mkContext SizeofState Willing
    [CallGetSVal SizeofInt;
     CallGetTypeSizeInChars CInt;
     CallGenerateNonFatalErrorNode SizeofState;
     CallEmitReport (mkReport BT (SideMessage false) Node7)].

End CModel.

(** * Properties *)

Local Close Scope string_scope.

Section Properties.

Context {Ty : Type} `{AST : ASTContext Ty}.

Implicit Types (BO : BinaryOperator Ty) (C : CheckerContext Ty).
Implicit Types (T PT : Ty) (IsLeft : bool) (N : ExplodedNode).

(** ** The trace and its projections *)

Lemma reportsOf_app (Tr1 Tr2 : list (Call Ty)) :
  reportsOf (Tr1 ++ Tr2) = reportsOf Tr1 ++ reportsOf Tr2.
Proof.
  induction Tr1 as [|K Tr1 IH]; [done|].
  destruct K; simpl; by rewrite IH.
Qed.

Lemma sizeQueriesOf_app (Tr1 Tr2 : list (Call Ty)) :
  sizeQueriesOf (Tr1 ++ Tr2) = sizeQueriesOf Tr1 ++ sizeQueriesOf Tr2.
Proof.
  induction Tr1 as [|K Tr1 IH]; [done|].
  destruct K; simpl; by rewrite IH.
Qed.

Lemma svalQueriesOf_app (Tr1 Tr2 : list (Call Ty)) :
  svalQueriesOf (Tr1 ++ Tr2) = svalQueriesOf Tr1 ++ svalQueriesOf Tr2.
Proof.
  induction Tr1 as [|K Tr1 IH]; [done|].
  destruct K; simpl; by rewrite IH.
Qed.

Lemma nodeRequestsOf_app (Tr1 Tr2 : list (Call Ty)) :
  nodeRequestsOf (Tr1 ++ Tr2) = nodeRequestsOf Tr1 ++ nodeRequestsOf Tr2.
Proof.
  induction Tr1 as [|K Tr1 IH]; [done|].
  destruct K; simpl; by rewrite IH.
Qed.

Lemma getReports_logCall (K : Call Ty) C :
  getReports (logCall K C) = getReports C ++ reportsOf [K].
Proof. unfold getReports, logCall; simpl. apply reportsOf_app. Qed.

(** ** The operator filter *)

Lemma filter_passes (Opc : BinaryOperatorKind) :
  Opc ∈ AdditiveOrCompound →
  negb (isAdditiveOpcode Opc) && negb (bool_decide (Opc = BO_AddAssign))
  && negb (bool_decide (Opc = BO_SubAssign)) = false.
Proof.
  unfold AdditiveOrCompound. intros H.
  set_unfold. destruct H as [->|[->|[->|[->|[]]]]]; reflexivity.
Qed.

Lemma filter_stops (Opc : BinaryOperatorKind) :
  Opc ∉ AdditiveOrCompound →
  negb (isAdditiveOpcode Opc) && negb (bool_decide (Opc = BO_AddAssign))
  && negb (bool_decide (Opc = BO_SubAssign)) = true.
Proof.
  unfold AdditiveOrCompound. intros H.
  destruct Opc; try reflexivity; exfalso; apply H; set_solver.
Qed.

(** ** [isCharPtr] *)

Lemma hasKnownSize_guard PT :
  isIncompleteType PT || isDependentType PT
  || isDependentSizedArrayType PT || negb (isConstantSizeType PT)
  = negb (hasKnownSize PT).
Proof.
  unfold hasKnownSize.
  by destruct (isIncompleteType PT), (isDependentType PT),
    (isDependentSizedArrayType PT), (isConstantSizeType PT).
Qed.

Lemma hasKnownSize_valid PT :
  hasKnownSize PT = true → sizeQueryValid PT = true.
Proof.
  unfold hasKnownSize, sizeQueryValid.
  by destruct (isIncompleteType PT), (isDependentType PT),
    (isDependentSizedArrayType PT), (isConstantSizeType PT).
Qed.

(** What a call of [isCharPtr] returns and leaves in the context. *)
Lemma isCharPtr_run (QT : option Ty) C :
  isCharPtr QT C =
  Some match checkedPointee QT with
       | Some PT => (sizeInChars PT =? 1, logCall (CallGetTypeSizeInChars PT) C)
       | None => (false, C)
       end.
Proof.
  unfold isCharPtr, checkedPointee.
  destruct QT as [T|]; [|done].
  destruct (isAnyPointerType T); simpl; [|done].
  destruct (getPointeeType T) as [PT|]; [|done].
  rewrite hasKnownSize_guard.
  destruct (hasKnownSize PT) eqn:HK; simpl; [|done].
  unfold bind, getTypeSizeInChars. by rewrite (hasKnownSize_valid _ HK).
Qed.

Lemma checkedPointee_known T PT :
  isPointerType T = true → getPointeeType T = Some PT →
  hasKnownSize PT = true → checkedPointee (Some T) = Some PT.
Proof.
  intros HP HPT HK. unfold checkedPointee, isAnyPointerType.
  by rewrite HP, HPT, HK.
Qed.

Lemma checkedPointee_unknown T :
  PointeeSizeUnknown T → checkedPointee (Some T) = None.
Proof.
  unfold PointeeSizeUnknown, checkedPointee, hasKnownSize.
  destruct (isAnyPointerType T); [|done].
  destruct (getPointeeType T) as [PT|]; [|done].
  intros [->|[->|[->| ->]]]; simpl; [done| | |];
    by destruct (isIncompleteType PT); try destruct (isDependentType PT);
       try destruct (isDependentSizedArrayType PT).
Qed.

(** ** [reportBug] *)

Lemma BugMessage_SideMessage IsLeft : BugMessage IsLeft = SideMessage IsLeft.
Proof. by destruct IsLeft; vm_compute. Qed.

Lemma reportBug_run IsLeft C :
  reportBug IsLeft C =
  Some (tt,
        let C1 := logCall (CallGenerateNonFatalErrorNode (getState C)) C in
        match getEngine C (getState C) with
        | Some N => logCall (CallEmitReport (mkReport BT (SideMessage IsLeft) N)) C1
        | None => C1
        end).
Proof.
  unfold reportBug, bind, generateNonFatalErrorNode. simpl.
  destruct (getEngine C (getState C)); [|done].
  unfold emitReport. by rewrite BugMessage_SideMessage.
Qed.

(** ** [checkPreStmt] *)

(** On an operation of pointer and integer operands that passes the filter,
    the checker reads the value of the integer operand and nothing else
    before it decides. *)
Lemma checkPreStmt_roles BO C IsLeft :
  getOpcode BO ∈ AdditiveOrCompound →
  isPointerType (getType (PtrOperand BO IsLeft)) = true →
  isPointerType (getType (IntOperand BO IsLeft)) = false →
  isIntegerType (getType (IntOperand BO IsLeft)) = true →
  checkPreStmt BO C =
  let C1 := logCall (CallGetSVal (IntOperand BO IsLeft)) C in
  if isFromSizeof (lookupSVal (getState C) (getExprId (IntOperand BO IsLeft)))
  then bind (isCharPtr (Some (getType (PtrOperand BO IsLeft))))
         (fun IsChar => if negb IsChar then reportBug IsLeft else ret tt) C1
  else Some (tt, C1).
Proof.
  intros HOp HP HNP HI. unfold checkPreStmt, isAdditiveOp.
  rewrite (filter_passes _ HOp).
  destruct IsLeft; simpl in *.
  - rewrite HNP, HI, HP. simpl. unfold bind at 1, getSVal. simpl.
    by destruct (isFromSizeof _).
  - rewrite HP, HI. simpl. unfold bind at 1, getSVal. simpl.
    by destruct (isFromSizeof _).
Qed.

Lemma checkPreStmt_qualifying BO C IsLeft :
  Qualifying BO C IsLeft →
  checkPreStmt BO C =
  bind (isCharPtr (Some (getType (PtrOperand BO IsLeft))))
    (fun IsChar => if negb IsChar then reportBug IsLeft else ret tt)
    (logCall (CallGetSVal (IntOperand BO IsLeft)) C).
Proof.
  intros (HOp & HP & HNP & HI & HS).
  rewrite (checkPreStmt_roles _ _ IsLeft) by done. simpl. by rewrite HS.
Qed.

(** A qualifying operation whose pointer does not pass the size-one test
    goes to the report step, with the side of the integer operand. *)
Lemma checkPreStmt_to_report BO C IsLeft :
  Qualifying BO C IsLeft →
  (∀ PT, checkedPointee (Some (getType (PtrOperand BO IsLeft))) = Some PT →
         sizeInChars PT ≠ 1) →
  ∃ C1, checkPreStmt BO C = reportBug IsLeft C1
        ∧ getState C1 = getState C ∧ getEngine C1 = getEngine C
        ∧ getReports C1 = getReports C
        ∧ (checkedPointee (Some (getType (PtrOperand BO IsLeft))) = None →
           sizeQueriesOf (getTrace C1) = sizeQueriesOf (getTrace C)).
Proof.
  intros HQ HSize. rewrite (checkPreStmt_qualifying _ _ _ HQ).
  unfold bind. rewrite isCharPtr_run.
  destruct (checkedPointee _) as [PT|].
  - specialize (HSize PT eq_refl). apply Z.eqb_neq in HSize.
    rewrite HSize. simpl.
    eexists; split; [done|]. repeat split; [|done].
    unfold getReports; simpl. rewrite !reportsOf_app; simpl.
    by rewrite !app_nil_r.
  - simpl. eexists; split; [done|]. repeat split.
    + unfold getReports; simpl. rewrite reportsOf_app; simpl.
      by rewrite app_nil_r.
    + intros _. simpl. rewrite sizeQueriesOf_app; simpl. by rewrite app_nil_r.
Qed.

Lemma reportBug_emits IsLeft C N :
  getEngine C (getState C) = Some N →
  ∃ C', reportBug IsLeft C = Some (tt, C')
        ∧ getReports C' = getReports C ++ [mkReport BT (SideMessage IsLeft) N]
        ∧ sizeQueriesOf (getTrace C') = sizeQueriesOf (getTrace C).
Proof.
  intros HN. rewrite reportBug_run, HN. eexists; split; [done|]. split.
  - unfold getReports; simpl. rewrite !reportsOf_app; simpl.
    by rewrite app_nil_r.
  - simpl. rewrite !sizeQueriesOf_app; simpl. by rewrite !app_nil_r.
Qed.

(** ** The findings *)

(** C1, amended: on an additive or compound additive operation with exactly
    one side of pointer type, the other side of integer type and bound to a
    value tagged as computed from sizeof or offsetof, where the pointee of
    the pointer has a statically known constant size greater than 1, and
    where the engine supplies an error node for the state of the path, the
    checker emits one finding, attached to that node, whose message names
    the side of the integer operand. *)
Theorem scaled_arithmetic_is_reported BO C IsLeft PT N :
  Qualifying BO C IsLeft →
  getPointeeType (getType (PtrOperand BO IsLeft)) = Some PT →
  hasKnownSize PT = true →
  1 < sizeInChars PT →
  getEngine C (getState C) = Some N →
  ∃ C', checkPreStmt BO C = Some (tt, C')
        ∧ getReports C' = getReports C ++ [mkReport BT (SideMessage IsLeft) N].
Proof.
  intros HQ HPT HK HSize HN.
  pose proof HQ as (_ & HP & _).
  destruct (checkPreStmt_to_report BO C IsLeft HQ) as (C1 & -> & HS & HE & HR & _).
  { rewrite (checkedPointee_known _ _ HP HPT HK). intros ? [= <-]. lia. }
  destruct (reportBug_emits IsLeft C1 N) as (C' & HRun & HRep & _).
  { by rewrite HE, HS. }
  exists C'. by rewrite HRun, HRep, HR.
Qed.

(** C2: on a qualifying operation where the pointee of the pointer has a
    statically known constant size of exactly 1, the checker emits no
    finding; all it does is read the value of the integer operand and the
    size of the pointee. *)
Theorem byte_sized_pointee_is_silent BO C IsLeft PT :
  Qualifying BO C IsLeft →
  getPointeeType (getType (PtrOperand BO IsLeft)) = Some PT →
  hasKnownSize PT = true →
  sizeInChars PT = 1 →
  ∃ C', checkPreStmt BO C = Some (tt, C')
        ∧ getReports C' = getReports C
        ∧ getTrace C' = getTrace C ++ [CallGetSVal (IntOperand BO IsLeft);
                                       CallGetTypeSizeInChars PT].
Proof.
  intros HQ HPT HK HSize.
  pose proof HQ as (_ & HP & _).
  rewrite (checkPreStmt_qualifying _ _ _ HQ).
  unfold bind. rewrite isCharPtr_run, (checkedPointee_known _ _ HP HPT HK).
  rewrite HSize. simpl. eexists; split; [done|]. split.
  - unfold getReports; simpl. rewrite !reportsOf_app; simpl.
    by rewrite !app_nil_r.
  - simpl. by rewrite <- app_assoc.
Qed.

(** C3, amended: on a qualifying operation where the pointee of the pointer
    is null, incomplete, dependent, a dependently sized array or not of
    constant size, the size-one exclusion does not apply: whatever the
    engine answers, the analysis goes on, no size is asked for and the
    candidate reaches the report step, where an error node is requested for
    the state of the path; where the engine supplies that node, the checker
    emits the finding for the side of the integer operand, and where it
    supplies none the reports stay as they were. *)
Theorem unknown_pointee_size_is_reported BO C IsLeft :
  Qualifying BO C IsLeft →
  PointeeSizeUnknown (getType (PtrOperand BO IsLeft)) →
  ∃ C', checkPreStmt BO C = Some (tt, C')
        ∧ sizeQueriesOf (getTrace C') = sizeQueriesOf (getTrace C)
        ∧ nodeRequestsOf (getTrace C')
          = nodeRequestsOf (getTrace C) ++ [getState C]
        ∧ (∀ N, getEngine C (getState C) = Some N →
             getReports C' =
               getReports C ++ [mkReport BT (SideMessage IsLeft) N])
        ∧ (getEngine C (getState C) = None → getReports C' = getReports C).
Proof.
  intros HQ HU.
  rewrite (checkPreStmt_qualifying _ _ _ HQ). unfold bind.
  rewrite isCharPtr_run, (checkedPointee_unknown _ HU). simpl.
  rewrite reportBug_run. simpl. eexists; split; [done|].
  unfold getReports.
  destruct (getEngine C (getState C)) as [N|]; simpl;
    rewrite ?sizeQueriesOf_app, ?nodeRequestsOf_app, ?reportsOf_app; simpl;
    rewrite ?app_nil_r.
  - repeat split; [by intros ? [= <-]|done].
  - repeat split; done.
Qed.

(** C10, amended: on a qualifying operation where the pointee of the
    pointer has a statically known constant size of 0, the size-one
    exclusion does not apply: where the engine supplies an error node for
    the state of the path, the checker emits the finding for the side of
    the integer operand. *)
Theorem zero_sized_pointee_is_reported BO C IsLeft PT N :
  Qualifying BO C IsLeft →
  getPointeeType (getType (PtrOperand BO IsLeft)) = Some PT →
  hasKnownSize PT = true →
  sizeInChars PT = 0 →
  getEngine C (getState C) = Some N →
  ∃ C', checkPreStmt BO C = Some (tt, C')
        ∧ getReports C' = getReports C ++ [mkReport BT (SideMessage IsLeft) N].
Proof.
  intros HQ HPT HK HSize HN.
  pose proof HQ as (_ & HP & _).
  destruct (checkPreStmt_to_report BO C IsLeft HQ) as (C1 & -> & HS & HE & HR & _).
  { rewrite (checkedPointee_known _ _ HP HPT HK). intros ? [= <-]. lia. }
  destruct (reportBug_emits IsLeft C1 N) as (C' & HRun & HRep & _).
  { by rewrite HE, HS. }
  exists C'. by rewrite HRun, HRep, HR.
Qed.

(** ** The size-one test *)

Lemma checkedPointee_Guarded (QT : option Ty) PT :
  checkedPointee QT = Some PT ↔ Guarded QT PT.
Proof.
  unfold checkedPointee, Guarded, hasKnownSize. split.
  - destruct QT as [T|]; [|done].
    destruct (isAnyPointerType T) eqn:HA; [|done].
    destruct (getPointeeType T) as [PT'|] eqn:HPT; [|done].
    destruct (isIncompleteType PT') eqn:H1, (isDependentType PT') eqn:H2,
      (isDependentSizedArrayType PT') eqn:H3, (isConstantSizeType PT') eqn:H4;
      simpl; try done.
    intros [= <-]. by exists T.
  - intros (T & -> & -> & -> & -> & -> & -> & ->). done.
Qed.

(** C4: whatever type the size-one test is given, it returns; the size of a
    type is asked for only when the type given is a non-null pointer and
    that type is its pointee, checked to be non-null, complete, not
    dependent, not a dependently sized array and of constant size (so that
    the size query is valid); on a type that fails one of the guards the
    test returns false and leaves the context as it was. *)
Theorem isCharPtr_guards_the_size_query (QT : option Ty) C :
  ∃ IsChar Qs,
    isCharPtr QT C =
      Some (IsChar,
            mkContext (getState C) (getEngine C)
              (getTrace C ++ (CallGetTypeSizeInChars <$> Qs)))
    ∧ (∀ PT, PT ∈ Qs → Guarded QT PT ∧ sizeQueryValid PT = true)
    ∧ ((∀ PT, ¬ Guarded QT PT) → IsChar = false ∧ Qs = []).
Proof.
  rewrite isCharPtr_run.
  destruct (checkedPointee QT) as [PT|] eqn:HC.
  - exists (sizeInChars PT =? 1), [PT]. split; [done|]. split.
    + intros PT' ->%list_elem_of_singleton.
      pose proof HC as HG%checkedPointee_Guarded. split; [done|].
      destruct HG as (T & _ & _ & _ & H1 & H2 & _ & H4).
      unfold sizeQueryValid. by rewrite H1, H2, H4.
    + intros HNo. by destruct (HNo PT); apply checkedPointee_Guarded.
  - exists false, []. split; [|split; [|done]].
    + simpl. rewrite app_nil_r. by destruct C.
    + by intros PT ?%elem_of_nil.
Qed.

(** ** The silent cases *)

(** C5: where no operand of integer type is bound to a value tagged as
    computed from sizeof or offsetof, the checker emits no finding, whatever
    the operator, the types of the operands and the size of a pointee. *)
Theorem untagged_integer_is_silent BO C :
  (isIntegerType (getType (getLHS BO)) = true →
   isFromSizeof (lookupSVal (getState C) (getExprId (getLHS BO))) = false) →
  (isIntegerType (getType (getRHS BO)) = true →
   isFromSizeof (lookupSVal (getState C) (getExprId (getRHS BO))) = false) →
  ∃ C', checkPreStmt BO C = Some (tt, C') ∧ getReports C' = getReports C.
Proof.
  intros HL HR. unfold checkPreStmt.
  destruct (_ && _ && _); [by eexists|].
  destruct (isPointerType (getType (getLHS BO))) eqn:HPL,
    (isIntegerType (getType (getRHS BO))) eqn:HIR; simpl.
  1: { unfold bind, getSVal. rewrite HR by done. eexists; split; [done|].
       rewrite getReports_logCall; simpl. by rewrite app_nil_r. }
  all: destruct (isIntegerType (getType (getLHS BO))) eqn:HIL,
         (isPointerType (getType (getRHS BO))) eqn:HPR; simpl;
       try (by eexists).
  all: unfold bind, getSVal; rewrite HL by done; eexists; split; [done|];
       rewrite getReports_logCall; simpl; by rewrite app_nil_r.
Qed.

(** C6: on an operation whose operator is none of [+], [-], [+=] and [-=]
    the checker returns at once: it calls nothing and leaves the context as
    it was, so no finding is emitted, whatever the operands are. *)
Theorem other_operators_are_skipped BO C :
  getOpcode BO ∉ AdditiveOrCompound →
  checkPreStmt BO C = Some (tt, C).
Proof.
  intros HOp. unfold checkPreStmt, isAdditiveOp.
  by rewrite (filter_stops _ HOp).
Qed.

(** ** The reports *)

(** C8: the report step returns in every case; where the engine supplies no
    error node, the reports are those there were before; where it supplies
    one, one report is added, for that node; so a report is emitted if and
    only if the engine supplies a node. *)
Theorem report_iff_error_node IsLeft C :
  ∃ C', reportBug IsLeft C = Some (tt, C')
        ∧ (getEngine C (getState C) = None → getReports C' = getReports C)
        ∧ (∀ N, getEngine C (getState C) = Some N →
             getReports C' =
               getReports C ++ [mkReport BT (SideMessage IsLeft) N])
        ∧ (getReports C' ≠ getReports C ↔ is_Some (getEngine C (getState C))).
Proof.
  rewrite reportBug_run. eexists; split; [done|].
  destruct (getEngine C (getState C)) as [N|]; simpl.
  - assert (HRep : getReports (logCall (CallEmitReport (mkReport BT (SideMessage IsLeft) N))
                     (logCall (CallGenerateNonFatalErrorNode (getState C)) C))
                   = getReports C ++ [mkReport BT (SideMessage IsLeft) N]).
    { rewrite !getReports_logCall; simpl. by rewrite app_nil_r. }
    split; [done|]. split; [by intros ? [= <-]|]. split; [by eexists|].
    intros _. rewrite HRep. intros HEq.
    apply (f_equal length) in HEq. rewrite length_app in HEq. simpl in HEq. lia.
  - assert (HRep : getReports (logCall (CallGenerateNonFatalErrorNode (getState C)) C)
                   = getReports C).
    { rewrite getReports_logCall; simpl. by rewrite app_nil_r. }
    split; [done|]. split; [done|]. split; [done|].
    by intros [? ?].
Qed.

(** The second half of a branch of [checkPreStmt]: the size-one test on the
    type of the pointer, then the report step.  The reports it adds are a
    function of that type and of the answer of the engine. *)
Lemma decision_run T IsLeft C :
  ∃ C', bind (isCharPtr (Some T))
          (fun IsChar => if negb IsChar then reportBug IsLeft else ret tt) C
        = Some (tt, C')
      ∧ getReports C' =
          getReports C ++
          (if match checkedPointee (Some T) with
              | Some PT => negb (sizeInChars PT =? 1)
              | None => true
              end
           then match getEngine C (getState C) with
                | Some N => [mkReport BT (SideMessage IsLeft) N]
                | None => []
                end
           else [])
      ∧ svalQueriesOf (getTrace C') = svalQueriesOf (getTrace C).
Proof.
  unfold bind. rewrite isCharPtr_run.
  destruct (checkedPointee (Some T)) as [PT|];
    [destruct (sizeInChars PT =? 1)|]; simpl;
    try rewrite reportBug_run; simpl;
    try destruct (getEngine C (getState C)) as [N|];
    (eexists; split; [done|]); split;
    unfold getReports; simpl;
    rewrite ?reportsOf_app, ?svalQueriesOf_app; simpl;
    by rewrite ?app_nil_r.
Qed.

(** One branch of [checkPreStmt]: the value of the integer operand is
    read, and a tagged one leads to the size-one test and the report
    step. *)
Lemma branch_run BO C IsLeft :
  isIntegerType (getType (IntOperand BO IsLeft)) = true →
  isPointerType (getType (PtrOperand BO IsLeft)) = true →
  ∃ C' Rs,
    bind (getSVal (IntOperand BO IsLeft))
      (fun V => if isFromSizeof V
                then bind (isCharPtr (Some (getType (PtrOperand BO IsLeft))))
                       (fun IsChar => if negb IsChar
                                      then reportBug IsLeft else ret tt)
                else ret tt) C = Some (tt, C')
    ∧ getReports C' = getReports C ++ Rs
    ∧ Forall (AddedBy BO) Rs.
Proof.
  intros HI HP. unfold bind at 1, getSVal.
  assert (HLog : getReports (logCall (CallGetSVal (IntOperand BO IsLeft)) C)
                 = getReports C).
  { rewrite getReports_logCall; simpl. by rewrite app_nil_r. }
  destruct (isFromSizeof _).
  - destruct (decision_run (getType (PtrOperand BO IsLeft)) IsLeft
                (logCall (CallGetSVal (IntOperand BO IsLeft)) C))
      as (C' & -> & HRep & _).
    eexists C', _. split; [done|]. rewrite HRep, HLog. split; [done|].
    destruct (match checkedPointee _ with Some _ => _ | None => _ end);
      [|by constructor].
    simpl. destruct (getEngine C (getState C)) as [N|]; [|by constructor].
    constructor; [|by constructor]. by exists IsLeft, N.
  - exists (logCall (CallGetSVal (IntOperand BO IsLeft)) C), [].
    split; [done|]. rewrite HLog, app_nil_r. by split.
Qed.

(** The checker returns on every operation, and what it adds to the
    reports are reports of its own making. *)
Lemma checkPreStmt_adds BO C :
  ∃ C' Rs, checkPreStmt BO C = Some (tt, C')
           ∧ getReports C' = getReports C ++ Rs
           ∧ Forall (AddedBy BO) Rs.
Proof.
  unfold checkPreStmt.
  destruct (_ && _ && _).
  { exists C, []. by rewrite app_nil_r. }
  destruct (isPointerType (getType (getLHS BO))
            && isIntegerType (getType (getRHS BO))) eqn:H1.
  { apply andb_true_iff in H1 as [HP HI]. by apply (branch_run _ _ false). }
  destruct (isIntegerType (getType (getLHS BO))
            && isPointerType (getType (getRHS BO))) eqn:H2.
  { apply andb_true_iff in H2 as [HI HP]. by apply (branch_run _ _ true). }
  exists C, []. by rewrite app_nil_r.
Qed.

(** C7: every report that a run of the checker adds carries the one bug
    type of the checker, whose identifier is "Badly scaled pointer
    arithmetic" and whose short description is "Suspicious operation", and
    its message is, to the letter, the sentence for the left argument or
    the sentence for the right argument, according to the side of the
    integer operand. *)
Theorem every_report_is_well_formed BO C :
  ∃ C' Rs,
    checkPreStmt BO C = Some (tt, C')
    ∧ getReports C' = getReports C ++ Rs
    ∧ Forall (fun R =>
        getBugType R = BT
        ∧ getIdentifier (getBugType R) = "Badly scaled pointer arithmetic"%string
        ∧ getShortDescription (getBugType R) = "Suspicious operation"%string
        ∧ ∃ IsLeft,
            getDescription R =
              (if IsLeft
               then "In pointer arithmetic left argument is calculated from a sizeof or offsetof expression"
               else "In pointer arithmetic right argument is calculated from a sizeof or offsetof expression")%string
            ∧ isIntegerType (getType (IntOperand BO IsLeft)) = true
            ∧ isPointerType (getType (PtrOperand BO IsLeft)) = true) Rs.
Proof.
  destruct (checkPreStmt_adds BO C) as (C' & Rs & HRun & HRep & HAll).
  exists C', Rs. split; [done|]. split; [done|].
  eapply Forall_impl; [exact HAll|].
  intros R (IsLeft & N & -> & HI & HP). repeat split.
  by exists IsLeft.
Qed.

(** ** What the outcome depends on *)





End Properties.

(** * The scenarios *)

Import CModel.

(** The scenarios of the specification, run on an engine that supplies the
    node 7. *)
Example ScenarioA_reports_right :
  getReports <$> (snd <$> checkPreStmt ScenarioA (Start Willing))
  = Some [mkReport BT (SideMessage false) Node7].
Proof. reflexivity. Qed.

Example ScenarioB_is_silent :
  getReports <$> (snd <$> checkPreStmt ScenarioB (Start Willing)) = Some [].
Proof. reflexivity. Qed.

Example ScenarioC_reports_right :
  getReports <$> (snd <$> checkPreStmt ScenarioC (Start Willing))
  = Some [mkReport BT (SideMessage false) Node7].
Proof. reflexivity. Qed.

Example ScenarioE_is_silent :
  getReports <$> (snd <$> checkPreStmt ScenarioE (Start Willing)) = Some [].
Proof. reflexivity. Qed.

Example ForwardSum_reports_left :
  getReports <$> (snd <$> checkPreStmt ForwardSum (Start Willing))
  = Some [mkReport BT (SideMessage true) Node7].
Proof. reflexivity. Qed.

(** ** C1 *)

Lemma scaled_arithmetic_is_reported_witness :
  ∃ C', checkPreStmt ScenarioA (Start Willing) = Some (tt, C')
        ∧ getReports C' =
            getReports (Start Willing) ++ [mkReport BT (SideMessage false) Node7].
Proof.
  apply (scaled_arithmetic_is_reported ScenarioA (Start Willing) false CInt Node7).
  - repeat split. apply list_elem_of_here.
  - reflexivity.
  - reflexivity.
  - reflexivity.
  - reflexivity.
Defined.

(** C1 as stated fails: [p + sizeof(int)] with [int *p] has every property
    the claim asks for, the pointee has size 4, and yet, on a path for
    which the engine supplies no error node, the checker returns without a
    finding. *)
Lemma scaled_arithmetic_unreported_without_node :
  Qualifying ScenarioA (Start Declining) false
  ∧ getPointeeType (getType (PtrOperand ScenarioA false)) = Some CInt
  ∧ hasKnownSize CInt = true
  ∧ 1 < sizeInChars CInt
  ∧ getReports <$> (snd <$> checkPreStmt ScenarioA (Start Declining)) = Some [].
Proof.
  split; [repeat split; apply list_elem_of_here|].
  repeat split.
Qed.

(** ** C2 *)

Lemma byte_sized_pointee_is_silent_witness :
  ∃ C', checkPreStmt ScenarioB (Start Willing) = Some (tt, C')
        ∧ getReports C' = getReports (Start Willing)
        ∧ getTrace C' =
            getTrace (Start Willing) ++ [CallGetSVal (IntOperand ScenarioB false);
                                         CallGetTypeSizeInChars CChar].
Proof.
  apply (byte_sized_pointee_is_silent ScenarioB (Start Willing) false CChar).
  - repeat split. apply list_elem_of_here.
  - reflexivity.
  - reflexivity.
  - reflexivity.
Defined.

(** ** C3 *)

Lemma unknown_pointee_size_is_reported_witness :
  ∃ C', checkPreStmt ForwardSum (Start Willing) = Some (tt, C')
        ∧ sizeQueriesOf (getTrace C') = sizeQueriesOf (getTrace (Start Willing))
        ∧ nodeRequestsOf (getTrace C')
          = nodeRequestsOf (getTrace (Start Willing))
            ++ [getState (Start Willing)]
        ∧ (∀ N, getEngine (Start Willing) (getState (Start Willing)) = Some N →
             getReports C' =
               getReports (Start Willing) ++ [mkReport BT (SideMessage true) N])
        ∧ (getEngine (Start Willing) (getState (Start Willing)) = None →
           getReports C' = getReports (Start Willing)).
Proof.
  apply (unknown_pointee_size_is_reported ForwardSum (Start Willing) true).
  - repeat split. apply list_elem_of_here.
  - left. reflexivity.
Defined.

(** C3 as stated fails: [sizeof(int) + f], with [f] a pointer to a struct
    that is only forward declared, qualifies and has a pointee of unknown
    size, and yet, on a path for which the engine supplies no error node,
    the checker returns without a finding. *)
Lemma unknown_pointee_size_unreported_without_node :
  Qualifying ForwardSum (Start Declining) true
  ∧ PointeeSizeUnknown (getType (PtrOperand ForwardSum true))
  ∧ getReports <$> (snd <$> checkPreStmt ForwardSum (Start Declining)) = Some [].
Proof.
  split; [repeat split; apply list_elem_of_here|].
  split; [by left|]. reflexivity.
Qed.

(** ** C5 *)

Lemma untagged_integer_is_silent_witness :
  ∃ C', checkPreStmt ScenarioE (Start Willing) = Some (tt, C')
        ∧ getReports C' = getReports (Start Willing).
Proof.
  apply (untagged_integer_is_silent ScenarioE (Start Willing)).
  - intros H. discriminate H.
  - intros _. reflexivity.
Defined.

(** ** C6 *)

Lemma other_operators_are_skipped_witness :
  checkPreStmt Comparison (Start Willing) = Some (tt, Start Willing).
Proof.
  apply (other_operators_are_skipped Comparison (Start Willing)).
  apply (bool_decide_unpack _). reflexivity.
Defined.

(** ** C9 *)



(** ** C10 *)

Lemma zero_sized_pointee_is_reported_witness :
  ∃ C', checkPreStmt EmptySum (Start Willing) = Some (tt, C')
        ∧ getReports C' =
            getReports (Start Willing) ++ [mkReport BT (SideMessage false) Node7].
Proof.
  apply (zero_sized_pointee_is_reported EmptySum (Start Willing) false
           (CStruct "Empty" (Some 0)) Node7).
  - repeat split. apply list_elem_of_here.
  - reflexivity.
  - reflexivity.
  - reflexivity.
  - reflexivity.
Defined.

(** C10 as stated fails: [e + sizeof(int)], with [e] a pointer to an empty
    struct of size 0, qualifies, and yet, on a path for which the engine
    supplies no error node, the checker returns without a finding. *)
Lemma zero_sized_pointee_unreported_without_node :
  Qualifying EmptySum (Start Declining) false
  ∧ getPointeeType (getType (PtrOperand EmptySum false))
    = Some (CStruct "Empty" (Some 0))
  ∧ hasKnownSize (CStruct "Empty" (Some 0)) = true
  ∧ sizeInChars (CStruct "Empty" (Some 0)) = 0
  ∧ getReports <$> (snd <$> checkPreStmt EmptySum (Start Declining)) = Some [].
Proof.
  split; [repeat split; apply list_elem_of_here|].
  repeat split.
Qed.

(** * The callback as a whole *)

Section Callback.

Context {Ty : Type} `{AST : ASTContext Ty}.

Implicit Types (BO : BinaryOperator Ty) (C : CheckerContext Ty).
Implicit Types (T PT : Ty) (IsLeft : bool) (N : ExplodedNode).
Implicit Types (St : ProgramState) (Engine : ProgramState → option ExplodedNode).

Lemma reportBug_calls IsLeft C :
  reportBug IsLeft C =
  Some (tt, mkContext (getState C) (getEngine C)
              (getTrace C ++ reportCalls IsLeft (getState C) (getEngine C))).
Proof.
  rewrite reportBug_run. unfold reportCalls, logCall. simpl.
  destruct (getEngine C (getState C)); simpl; [|done].
  by rewrite <- app_assoc.
Qed.

Lemma decision_calls T IsLeft C :
  bind (isCharPtr (Some T))
    (fun IsChar => if negb IsChar then reportBug IsLeft else ret tt) C
  = Some (tt, mkContext (getState C) (getEngine C)
                (getTrace C ++ decisionCalls T IsLeft (getState C) (getEngine C))).
Proof.
  unfold bind, decisionCalls. rewrite isCharPtr_run.
  destruct (checkedPointee (Some T)) as [PT|].
  - destruct (sizeInChars PT =? 1); simpl; [done|].
    rewrite reportBug_calls. simpl. by rewrite <- app_assoc.
  - simpl. by rewrite reportBug_calls.
Qed.

Lemma branch_calls BO IsLeft C :
  bind (getSVal (IntOperand BO IsLeft))
    (fun V => if isFromSizeof V
              then bind (isCharPtr (Some (getType (PtrOperand BO IsLeft))))
                     (fun IsChar => if negb IsChar
                                    then reportBug IsLeft else ret tt)
              else ret tt) C
  = Some (tt, mkContext (getState C) (getEngine C)
                (getTrace C ++ branchCalls BO IsLeft (getState C) (getEngine C))).
Proof.
  unfold bind at 1, getSVal, branchCalls.
  destruct (isFromSizeof _); [|done].
  rewrite decision_calls. simpl. by rewrite <- app_assoc.
Qed.

(** A run of [checkPreStmt] returns, leaves the state of the path and the
    engine as they were, and makes the calls of [callsOf], in that order. *)
Lemma checkPreStmt_calls BO C :
  checkPreStmt BO C
  = Some (tt, mkContext (getState C) (getEngine C)
                (getTrace C ++ callsOf BO (getState C) (getEngine C))).
Proof.
  unfold checkPreStmt, callsOf, isAdditiveOp.
  destruct (bool_decide_reflect (getOpcode BO ∈ AdditiveOrCompound)) as [HOp|HOp].
  - rewrite (filter_passes _ HOp).
    destruct (isPointerType (getType (getLHS BO))
              && isIntegerType (getType (getRHS BO))).
    { apply (branch_calls BO false). }
    destruct (isIntegerType (getType (getLHS BO))
              && isPointerType (getType (getRHS BO))).
    { apply (branch_calls BO true). }
    rewrite app_nil_r. by destruct C.
  - rewrite (filter_stops _ HOp). rewrite app_nil_r. by destruct C.
Qed.

(** What may appear among the calls of a run: nothing, or the calls of the
    branch of an integer operand that faces a pointer operand, on an
    operator that passed the filter. *)
Lemma callsOf_cases BO St Engine :
  callsOf BO St Engine = []
  ∨ ∃ IsLeft,
      getOpcode BO ∈ AdditiveOrCompound
      ∧ isPointerType (getType (PtrOperand BO IsLeft)) = true
      ∧ isIntegerType (getType (IntOperand BO IsLeft)) = true
      ∧ callsOf BO St Engine = branchCalls BO IsLeft St Engine.
Proof.
  unfold callsOf.
  destruct (bool_decide_reflect (getOpcode BO ∈ AdditiveOrCompound)) as [HOp|HOp];
    [|by left].
  destruct (isPointerType (getType (getLHS BO))
            && isIntegerType (getType (getRHS BO))) eqn:H1.
  { apply andb_true_iff in H1 as [HP HI]. right. by exists false. }
  destruct (isIntegerType (getType (getLHS BO))
            && isPointerType (getType (getRHS BO))) eqn:H2.
  { apply andb_true_iff in H2 as [HI HP]. right. by exists true. }
  by left.
Qed.

Lemma Guarded_valid (QT : option Ty) PT :
  Guarded QT PT → sizeQueryValid PT = true.
Proof.
  intros (T & _ & _ & _ & H1 & H2 & _ & H4).
  unfold sizeQueryValid. by rewrite H1, H2, H4.
Qed.

Lemma reportCalls_projections IsLeft St Engine :
  sizeQueriesOf (reportCalls (Ty:=Ty) IsLeft St Engine) = []
  ∧ svalQueriesOf (reportCalls (Ty:=Ty) IsLeft St Engine) = []
  ∧ nodeRequestsOf (reportCalls (Ty:=Ty) IsLeft St Engine) = [St]
  ∧ reportsOf (reportCalls (Ty:=Ty) IsLeft St Engine)
    = match Engine St with
      | Some N => [mkReport BT (SideMessage IsLeft) N]
      | None => []
      end.
Proof. unfold reportCalls. by destruct (Engine St). Qed.

(** The reports among the calls of the size-one test and the report step. *)
Lemma reportsOf_decisionCalls T IsLeft St Engine :
  reportsOf (decisionCalls T IsLeft St Engine)
  = if match checkedPointee (Some T) with
       | Some PT => negb (sizeInChars PT =? 1)
       | None => true
       end
    then match Engine St with
         | Some N => [mkReport BT (SideMessage IsLeft) N]
         | None => []
         end
    else [].
Proof.
  unfold decisionCalls.
  destruct (reportCalls_projections IsLeft St Engine) as (_ & _ & _ & HR).
  destruct (checkedPointee (Some T)) as [PT|]; [|done].
  simpl. by destruct (sizeInChars PT =? 1).
Qed.

(** ** Layout queries *)

(** X1: a run of the callback always returns, and every type whose size it
    asks for is in the domain of the size query: it is the pointee, checked
    by every guard of the size-one test, of the pointer operand of an
    operation that passed the filter and whose integer operand is bound to
    a tagged value.  No size is asked for on behalf of an untagged
    operand. *)
Theorem checkPreStmt_asks_only_valid_sizes BO C :
  ∃ C' Tr,
    checkPreStmt BO C = Some (tt, C')
    ∧ getTrace C' = getTrace C ++ Tr
    ∧ Forall (fun PT =>
        sizeQueryValid PT = true
        ∧ ∃ IsLeft,
            getOpcode BO ∈ AdditiveOrCompound
            ∧ Guarded (Some (getType (PtrOperand BO IsLeft))) PT
            ∧ isIntegerType (getType (IntOperand BO IsLeft)) = true
            ∧ isFromSizeof
                (lookupSVal (getState C) (getExprId (IntOperand BO IsLeft)))
              = true)
        (sizeQueriesOf Tr).
Proof.
  rewrite checkPreStmt_calls. eexists _, _. split; [done|]. split; [done|].
  destruct (callsOf_cases BO (getState C) (getEngine C))
    as [-> | (IsLeft & HOp & HP & HI & ->)]; [by constructor|].
  unfold branchCalls. simpl.
  destruct (isFromSizeof _) eqn:HS; [|by constructor].
  unfold decisionCalls.
  destruct (reportCalls_projections IsLeft (getState C) (getEngine C))
    as (HSz & _).
  destruct (checkedPointee _) as [PT|] eqn:HC; [|by rewrite HSz].
  apply checkedPointee_Guarded in HC. simpl.
  constructor.
  - split; [by eapply Guarded_valid|]. by exists IsLeft.
  - destruct (sizeInChars PT =? 1); [by constructor|by rewrite HSz].
Qed.

(** ** The order and number of calls *)

(** X2: the calls of one run come in one order: first the symbolic values
    read, then the sizes asked for, then the error nodes requested, then
    the reports emitted.  There is at most one of each; a size or a node is
    asked for only in a run that read a value before, a report is emitted
    only in a run that requested a node before, and the node is requested
    for the state of the path as the callback received it. *)
Theorem checkPreStmt_call_protocol BO C :
  ∃ C' (Vs : list (Expr Ty)) (Ss : list Ty) (Ns : list ProgramState)
      (Rs : list PathSensitiveBugReport),
    checkPreStmt BO C = Some (tt, C')
    ∧ getTrace C' =
        getTrace C ++ (CallGetSVal <$> Vs) ++ (CallGetTypeSizeInChars <$> Ss)
        ++ (CallGenerateNonFatalErrorNode <$> Ns) ++ (CallEmitReport <$> Rs)
    ∧ (length Vs ≤ 1)%nat
    ∧ (length Ss ≤ length Vs)%nat
    ∧ (length Ns ≤ length Vs)%nat
    ∧ (length Rs ≤ length Ns)%nat
    ∧ Forall (eq (getState C)) Ns.
Proof.
  rewrite checkPreStmt_calls.
  destruct (callsOf_cases BO (getState C) (getEngine C))
    as [-> | (IsLeft & _ & _ & _ & ->)].
  { eexists _, [], [], [], []. split; [done|]. simpl.
    repeat split; try lia. by constructor. }
  unfold branchCalls.
  destruct (isFromSizeof _).
  2: { eexists _, [IntOperand BO IsLeft], [], [], []. split; [done|]. simpl.
       repeat split; try lia. by constructor. }
  unfold decisionCalls, reportCalls.
  destruct (checkedPointee _) as [PT|]; [destruct (sizeInChars PT =? 1)|];
    destruct (getEngine C (getState C)) as [N|].
  - eexists _, [IntOperand BO IsLeft], [PT], [], [].
    split; [done|]. simpl. repeat split; try lia. by constructor.
  - eexists _, [IntOperand BO IsLeft], [PT], [], [].
    split; [done|]. simpl. repeat split; try lia. by constructor.
  - eexists _, [IntOperand BO IsLeft], [PT], [getState C],
      [mkReport BT (SideMessage IsLeft) N].
    split; [done|]. simpl. repeat split; try lia. by repeat constructor.
  - eexists _, [IntOperand BO IsLeft], [PT], [getState C], [].
    split; [done|]. simpl. repeat split; try lia. by repeat constructor.
  - eexists _, [IntOperand BO IsLeft], [], [getState C],
      [mkReport BT (SideMessage IsLeft) N].
    split; [done|]. simpl. repeat split; try lia. by repeat constructor.
  - eexists _, [IntOperand BO IsLeft], [], [getState C], [].
    split; [done|]. simpl. repeat split; try lia. by repeat constructor.
Qed.

(** ** No report without cause *)

(** The cause of a report among the calls of a run. *)
Lemma callsOf_report_cause BO St Engine :
  reportsOf (callsOf BO St Engine) ≠ [] →
  ∃ IsLeft N,
    getOpcode BO ∈ AdditiveOrCompound
    ∧ isPointerType (getType (PtrOperand BO IsLeft)) = true
    ∧ isIntegerType (getType (IntOperand BO IsLeft)) = true
    ∧ isFromSizeof (lookupSVal St (getExprId (IntOperand BO IsLeft))) = true
    ∧ (∀ PT, Guarded (Some (getType (PtrOperand BO IsLeft))) PT →
             sizeInChars PT ≠ 1)
    ∧ Engine St = Some N
    ∧ reportsOf (callsOf BO St Engine) = [mkReport BT (SideMessage IsLeft) N].
Proof.
  destruct (callsOf_cases BO St Engine)
    as [-> | (IsLeft & HOp & HP & HI & ->)]; [done|].
  unfold branchCalls. simpl.
  destruct (isFromSizeof _) eqn:HS; [|done].
  rewrite reportsOf_decisionCalls.
  destruct (checkedPointee _) as [PT|] eqn:HC.
  - destruct (sizeInChars PT =? 1) eqn:HSize; simpl; [done|].
    destruct (Engine St) as [N|] eqn:HN; [|done].
    intros _. exists IsLeft, N. repeat split; try done.
    intros PT' HG%checkedPointee_Guarded. rewrite HC in HG.
    injection HG as <-. by apply Z.eqb_neq.
  - destruct (Engine St) as [N|] eqn:HN; [|done].
    intros _. exists IsLeft, N. repeat split; try done.
    intros PT' HG%checkedPointee_Guarded. by rewrite HC in HG.
Qed.

(** X3: a run that adds a report was given an operation whose operator is
    one of [+], [-], [+=] and [-=], with an operand of integer type bound to
    a tagged value and facing an operand of pointer type whose pointee is
    not known to be of size 1, on a path for which the engine supplied an
    error node; and the report it added is the one report for that side and
    that node. *)
Theorem report_has_a_cause BO C C' :
  checkPreStmt BO C = Some (tt, C') →
  getReports C' ≠ getReports C →
  ∃ IsLeft N,
    getOpcode BO ∈ AdditiveOrCompound
    ∧ isPointerType (getType (PtrOperand BO IsLeft)) = true
    ∧ isIntegerType (getType (IntOperand BO IsLeft)) = true
    ∧ isFromSizeof
        (lookupSVal (getState C) (getExprId (IntOperand BO IsLeft))) = true
    ∧ (∀ PT, Guarded (Some (getType (PtrOperand BO IsLeft))) PT →
             sizeInChars PT ≠ 1)
    ∧ getEngine C (getState C) = Some N
    ∧ getReports C' = getReports C ++ [mkReport BT (SideMessage IsLeft) N].
Proof.
  rewrite checkPreStmt_calls. intros [= <-]. unfold getReports. simpl.
  rewrite reportsOf_app. intros HNe.
  destruct (callsOf_report_cause BO (getState C) (getEngine C))
    as (IsLeft & N & HOp & HP & HI & HS & HSize & HN & ->).
  { intros HNil. by rewrite HNil, app_nil_r in HNe. }
  by exists IsLeft, N.
Qed.

(** X8: when exactly the callback reports.  Where no operand is of pointer
    and of integer type at once, a run adds a report if and only if the
    operator is one of [+], [-], [+=] and [-=], one operand is of integer
    type and bound to a tagged value, the other is of pointer type, its
    pointee is not known to be of size 1, and the engine supplies an error
    node for the state of the path. *)
Theorem report_iff_cause BO C :
  (∀ E, E = getLHS BO ∨ E = getRHS BO →
        isPointerType (getType E) = true → isIntegerType (getType E) = false) →
  ∃ C',
    checkPreStmt BO C = Some (tt, C')
    ∧ (getReports C' ≠ getReports C ↔
       ∃ IsLeft,
         getOpcode BO ∈ AdditiveOrCompound
         ∧ isPointerType (getType (PtrOperand BO IsLeft)) = true
         ∧ isIntegerType (getType (IntOperand BO IsLeft)) = true
         ∧ isFromSizeof
             (lookupSVal (getState C) (getExprId (IntOperand BO IsLeft))) = true
         ∧ (∀ PT, Guarded (Some (getType (PtrOperand BO IsLeft))) PT →
                  sizeInChars PT ≠ 1)
         ∧ is_Some (getEngine C (getState C))).
Proof.
  intros HExcl. pose proof (checkPreStmt_calls BO C) as HRun.
  eexists. split; [exact HRun|]. unfold getReports at 1. simpl.
  rewrite reportsOf_app. split.
  - intros HNe.
    destruct (callsOf_report_cause BO (getState C) (getEngine C))
      as (IsLeft & N & HOp & HP & HI & HS & HSize & HN & _).
    { intros HNil. by rewrite HNil, app_nil_r in HNe. }
    exists IsLeft. by rewrite HN.
  - intros (IsLeft & HOp & HP & HI & HS & HSize & [N HN]).
    assert (HQ : Qualifying BO C IsLeft).
    { repeat split; try done.
      destruct (isPointerType (getType (IntOperand BO IsLeft))) eqn:HPI; [|done].
      rewrite (HExcl (IntOperand BO IsLeft)) in HI; [done| |done].
      destruct IsLeft; auto. }
    destruct (checkPreStmt_to_report BO C IsLeft HQ)
      as (C1 & HRun1 & HSt & HEn & HRep & _).
    { intros PT HG%checkedPointee_Guarded. by apply HSize. }
    destruct (reportBug_emits IsLeft C1 N) as (C' & HRun2 & HRep2 & _).
    { by rewrite HEn, HSt. }
    rewrite HRun1, HRun2 in HRun. injection HRun as ->.
    unfold getReports in HRep2, HRep. simpl in HRep2.
    rewrite reportsOf_app in HRep2. rewrite HRep in HRep2.
    apply app_inv_head in HRep2. rewrite HRep2.
    intros HEq. apply (f_equal length) in HEq. unfold getReports in HEq.
    rewrite length_app in HEq. simpl in HEq. lia.
Qed.

(** ** The size-one test *)

(** X4: the size-one test answers true exactly for a non-null pointer type
    whose pointee went through every guard and has size 1, whatever that
    pointee is: the test is on the size, not on the type being [char]. *)
Theorem isCharPtr_true_iff_size_one (QT : option Ty) C :
  ∃ IsChar C',
    isCharPtr QT C = Some (IsChar, C')
    ∧ (IsChar = true ↔ ∃ PT, Guarded QT PT ∧ sizeInChars PT = 1).
Proof.
  rewrite isCharPtr_run.
  destruct (checkedPointee QT) as [PT|] eqn:HC.
  - eexists _, _. split; [done|]. rewrite Z.eqb_eq. split.
    + intros HSize. exists PT. by split; [apply checkedPointee_Guarded|].
    + intros (PT' & HG%checkedPointee_Guarded & HSize).
      rewrite HC in HG. by injection HG as ->.
  - eexists _, _. split; [done|]. split; [done|].
    intros (PT & HG%checkedPointee_Guarded & _). by rewrite HC in HG.
Qed.

(** ** What a run depends on *)

(** X5: among the operators that pass the filter the callback makes no
    difference: a subtraction or a compound assignment is treated exactly
    as the addition of the same operands. *)
Theorem passing_operators_are_alike
    (Opc1 Opc2 : BinaryOperatorKind) (Lhs Rhs : Expr Ty) C :
  Opc1 ∈ AdditiveOrCompound →
  Opc2 ∈ AdditiveOrCompound →
  checkPreStmt (mkBinaryOperator Opc1 Lhs Rhs) C
  = checkPreStmt (mkBinaryOperator Opc2 Lhs Rhs) C.
Proof.
  intros H1 H2. rewrite !checkPreStmt_calls. unfold callsOf. simpl.
  by rewrite !bool_decide_true.
Qed.

(** X6: the reports that a run adds depend on the context only through the
    provenance flags of the values bound to the operands of integer type
    and through the answer of the engine for the state of the path: not on
    what the values are, not on other bindings, not on what was reported
    before. *)
Theorem reports_depend_on_flags_only BO C1 C2 :
  (∀ E, E = getLHS BO ∨ E = getRHS BO →
        isIntegerType (getType E) = true →
        isFromSizeof (lookupSVal (getState C1) (getExprId E))
        = isFromSizeof (lookupSVal (getState C2) (getExprId E))) →
  getEngine C1 (getState C1) = getEngine C2 (getState C2) →
  ∃ C1' C2' Rs,
    checkPreStmt BO C1 = Some (tt, C1')
    ∧ checkPreStmt BO C2 = Some (tt, C2')
    ∧ getReports C1' = getReports C1 ++ Rs
    ∧ getReports C2' = getReports C2 ++ Rs.
Proof.
  intros HFlags HEng. rewrite !checkPreStmt_calls.
  eexists _, _, _. split; [done|]. split; [done|].
  unfold getReports. simpl. rewrite !reportsOf_app. split; [done|].
  f_equal. unfold callsOf.
  destruct (bool_decide _); [|done].
  assert (HBranch : ∀ IsLeft,
            isIntegerType (getType (IntOperand BO IsLeft)) = true →
            reportsOf (branchCalls BO IsLeft (getState C2) (getEngine C2))
            = reportsOf (branchCalls BO IsLeft (getState C1) (getEngine C1))).
  { intros IsLeft HI. unfold branchCalls. simpl.
    rewrite (HFlags (IntOperand BO IsLeft)); [|by destruct IsLeft; auto|done].
    destruct (isFromSizeof _); [|done].
    by rewrite !reportsOf_decisionCalls, HEng. }
  destruct (isPointerType (getType (getLHS BO))
            && isIntegerType (getType (getRHS BO))) eqn:H1.
  { apply andb_true_iff in H1 as [_ HI]. by apply (HBranch false). }
  destruct (isIntegerType (getType (getLHS BO))
            && isPointerType (getType (getRHS BO))) eqn:H2.
  { apply andb_true_iff in H2 as [HI _]. by apply (HBranch true). }
  done.
Qed.

(** X7: an operation without an operand of pointer type, or without an
    operand of integer type (the difference of two pointers, the sum of
    two integers), is left alone: the callback makes no call and returns
    the context as it was, tagged values or not. *)
Theorem no_pair_no_call BO C :
  (isPointerType (getType (getLHS BO)) = false
   ∧ isPointerType (getType (getRHS BO)) = false)
  ∨ (isIntegerType (getType (getLHS BO)) = false
     ∧ isIntegerType (getType (getRHS BO)) = false) →
  checkPreStmt BO C = Some (tt, C).
Proof.
  intros HNo. rewrite checkPreStmt_calls.
  destruct (callsOf_cases BO (getState C) (getEngine C))
    as [-> | (IsLeft & _ & HP & HI & _)].
  { rewrite app_nil_r. by destruct C. }
  destruct IsLeft; simpl in *; destruct HNo as [[? ?]|[? ?]]; congruence.
Qed.

End Callback.

(** * The scenarios, again *)

Lemma report_has_a_cause_witness :
  ∃ IsLeft N,
    getOpcode ScenarioA ∈ AdditiveOrCompound
    ∧ isPointerType (getType (PtrOperand ScenarioA IsLeft)) = true
    ∧ isIntegerType (getType (IntOperand ScenarioA IsLeft)) = true
    ∧ isFromSizeof
        (lookupSVal (getState (Start Willing))
           (getExprId (IntOperand ScenarioA IsLeft))) = true
    ∧ (∀ PT, Guarded (Some (getType (PtrOperand ScenarioA IsLeft))) PT →
             sizeInChars PT ≠ 1)
    ∧ getEngine (Start Willing) (getState (Start Willing)) = Some N
    ∧ getReports AfterScenarioA
      = getReports (Start Willing) ++ [mkReport BT (SideMessage IsLeft) N].
Proof.
  apply (report_has_a_cause ScenarioA (Start Willing) AfterScenarioA).
  - reflexivity.
  - simpl. discriminate.
Defined.

Lemma passing_operators_are_alike_witness :
  checkPreStmt (mkBinaryOperator BO_Sub IntPtrVar SizeofInt) (Start Willing)
  = checkPreStmt (mkBinaryOperator BO_AddAssign IntPtrVar SizeofInt) (Start Willing).
Proof.
  apply (passing_operators_are_alike BO_Sub BO_AddAssign IntPtrVar SizeofInt
           (Start Willing)).
  - apply (bool_decide_unpack _). reflexivity.
  - apply (bool_decide_unpack _). reflexivity.
Defined.

Lemma reports_depend_on_flags_only_witness :
  ∃ C1' C2' Rs,
    checkPreStmt ScenarioA (Start Willing) = Some (tt, C1')
    ∧ checkPreStmt ScenarioA Later = Some (tt, C2')
    ∧ getReports C1' = getReports (Start Willing) ++ Rs
    ∧ getReports C2' = getReports Later ++ Rs.
Proof.
  apply (reports_depend_on_flags_only ScenarioA (Start Willing) Later).
  - intros E [-> | ->] HI.
    + discriminate HI.
    + reflexivity.
  - reflexivity.
Defined.

Lemma no_pair_no_call_witness :
  checkPreStmt PointerDifference (Start Willing) = Some (tt, Start Willing).
Proof.
  apply (no_pair_no_call PointerDifference (Start Willing)).
  right. split; reflexivity.
Defined.

Lemma report_iff_cause_witness :
  ∃ C',
    checkPreStmt ScenarioA (Start Willing) = Some (tt, C')
    ∧ (getReports C' ≠ getReports (Start Willing) ↔
       ∃ IsLeft,
         getOpcode ScenarioA ∈ AdditiveOrCompound
         ∧ isPointerType (getType (PtrOperand ScenarioA IsLeft)) = true
         ∧ isIntegerType (getType (IntOperand ScenarioA IsLeft)) = true
         ∧ isFromSizeof
             (lookupSVal (getState (Start Willing))
                (getExprId (IntOperand ScenarioA IsLeft))) = true
         ∧ (∀ PT, Guarded (Some (getType (PtrOperand ScenarioA IsLeft))) PT →
                  sizeInChars PT ≠ 1)
         ∧ is_Some (getEngine (Start Willing) (getState (Start Willing)))).
Proof.
  apply (report_iff_cause ScenarioA (Start Willing)).
  intros E [-> | ->] HP.
  - reflexivity.
  - discriminate HP.
Defined.
